(** * Octrafied PFP generator: a model of [src/app/page.tsx]

    The page is a React component with four pieces of state
    ([username], [image], [submitted], [isDownloading]), five handlers
    and an error boundary.  Strings are JavaScript strings, that is,
    sequences of UTF-16 code units; the canvas is modelled as a small
    state-and-exception monad over the drawing context. *)

From Stdlib Require Import String Ascii List Bool NArith ZArith Lia.
From ExtLib Require Import Structures.Monad Structures.MonadState Structures.MonadExc.
From ExtLib Require Import Data.Monads.StateMonad Data.Monads.EitherMonad.
Import ListNotations.
Import MonadNotation.
Local Open Scope monad_scope.
#[local] Existing Instance Monad_stateT.

(* ===================================================================== *)
(** ** JavaScript strings *)
(* ===================================================================== *)

(** A JavaScript string is a sequence of 16-bit code units.  Every
    function below works unit by unit, as [String.prototype] methods and
    regular expressions without the [u] flag do. *)
Definition jsstring := list N.

(** An ASCII literal as a JavaScript string. *)
Definition lit (s : string) : jsstring :=
  map N_of_ascii (list_ascii_of_string s).

(** [ToBoolean] on a string: only the empty string is falsy. *)
Definition truthy (s : jsstring) : bool :=
  match s with
  | [] => false
  | _ :: _ => true
  end.

(** [ToBoolean] on [string | null]. *)
Definition truthy_opt (o : option jsstring) : bool :=
  match o with
  | None => false
  | Some s => truthy s
  end.

(** The code units [String.prototype.trim] strips: ECMAScript WhiteSpace
    and LineTerminator. *)
Definition isWhiteSpace (c : N) : bool :=
  ((9 <=? c) && (c <=? 13) || (c =? 32) || (c =? 160) || (c =? 5760)
   || (8192 <=? c) && (c <=? 8202) || (c =? 8232) || (c =? 8233)
   || (c =? 8239) || (c =? 8287) || (c =? 12288) || (c =? 65279))%N.

Fixpoint trimStart (s : jsstring) : jsstring :=
  match s with
  | [] => []
  | c :: r => if isWhiteSpace c then trimStart r else s
  end.

Definition trimEnd (s : jsstring) : jsstring := rev (trimStart (rev s)).

Definition trim (s : jsstring) : jsstring := trimEnd (trimStart s).

(** [s.startsWith(p)]. *)
Fixpoint startsWith (p s : jsstring) : bool :=
  match p, s with
  | [], _ => true
  | _ :: _, [] => false
  | a :: p', b :: s' => (a =? b)%N && startsWith p' s'
  end.

(** [s.includes(p)]. *)
Fixpoint includes (p s : jsstring) : bool :=
  startsWith p s ||
  match s with
  | [] => false
  | _ :: s' => includes p s'
  end.

(** The character class [[a-zA-Z0-9]]. *)
Definition alnum (c : N) : bool :=
  ((97 <=? c) && (c <=? 122) || (65 <=? c) && (c <=? 90)
   || (48 <=? c) && (c <=? 57))%N.

(** [s.replace(/[^...]/g, rep)] for a negated one-unit character class:
    every unit outside the class is replaced by [rep]. *)
Definition replaceOutside (cls : N -> bool) (rep : jsstring) (s : jsstring)
  : jsstring :=
  flat_map (fun c => if cls c then [c] else rep) s.

(* ===================================================================== *)
(** ** Session state of [OctrafiedApp] *)
(* ===================================================================== *)

Record Session := mkSession {
  username : jsstring;
  image : option jsstring;
  submitted : bool;
  isDownloading : bool
}.

Definition initial : Session :=
  {| username := []; image := None; submitted := false; isDownloading := false |}.

Definition setUsername (v : jsstring) (s : Session) : Session :=
  {| username := v; image := image s; submitted := submitted s;
     isDownloading := isDownloading s |}.

Definition setImage (v : option jsstring) (s : Session) : Session :=
  {| username := username s; image := v; submitted := submitted s;
     isDownloading := isDownloading s |}.

Definition setSubmitted (v : bool) (s : Session) : Session :=
  {| username := username s; image := image s; submitted := v;
     isDownloading := isDownloading s |}.

Definition setIsDownloading (v : bool) (s : Session) : Session :=
  {| username := username s; image := image s; submitted := submitted s;
     isDownloading := v |}.

Inductive Phase := Editing | Previewing.

(** The rendered branch: [!submitted ? form : preview]. *)
Definition phase (s : Session) : Phase :=
  if submitted s then Previewing else Editing.

(** [handleSubmit]: the guard uses JavaScript truthiness of both
    [username.trim()] and [image]. *)
Definition handleSubmit (s : Session) : Session :=
  if truthy (trim (username s)) && truthy_opt (image s)
  then setSubmitted true s
  else s.

(** [handleReset]. *)
Definition handleReset (s : Session) : Session :=
  setIsDownloading false (setImage None (setUsername [] (setSubmitted false s))).

(* ===================================================================== *)
(** ** The 2D canvas *)
(* ===================================================================== *)

(** The only angles the page uses: [0] and [2 * Math.PI]. *)
Inductive Angle := Rad0 | Rad2Pi.

Record Arc := mkArc {
  arc_x : Z;
  arc_y : Z;
  arc_radius : Z;
  startAngle : Angle;
  endAngle : Angle
}.

Definition Path := list Arc.

(** What [save] pushes and [restore] pops.  The clip region is the
    intersection of the listed paths; [[]] is the whole surface. *)
Record DrawingState := mkDrawingState {
  clipRegion : list Path;
  strokeStyle : string;
  lineWidth : Z
}.

Record HTMLImageElement := mkImage {
  src : jsstring;
  naturalWidth : Z;
  naturalHeight : Z
}.

(** One painting operation on the bitmap, with the clip region that was
    in force when it was issued. *)
Inductive Paint :=
| Cleared (x y w h : Z)
| ImagePainted (img : HTMLImageElement) (dx dy dw dh : Z) (clip : list Path)
| Stroked (p : Path) (style : string) (lw : Z) (clip : list Path).

Record Canvas := mkCanvas {
  width : Z;
  height : Z;
  drawing : DrawingState;
  saved : list DrawingState;
  currentPath : Path;
  bitmap : list Paint
}.

Definition defaultDrawingState : DrawingState :=
  {| clipRegion := []; strokeStyle := "#000000"; lineWidth := 1 |}.

(** [document.createElement("canvas")]: 300 by 150, blank. *)
Definition createCanvas : Canvas :=
  {| width := 300; height := 150; drawing := defaultDrawingState;
     saved := []; currentPath := []; bitmap := [] |}.

(** The canvas once [downloadPfp] has sized and cleared it. *)
Definition blank200 : Canvas :=
  {| width := 200; height := 200; drawing := defaultDrawingState;
     saved := []; currentPath := []; bitmap := [Cleared 0 0 200 200] |}.

Inductive Exn :=
| JSError (message : string)
| DOMException (name : string).

(** Canvas code threads the canvas and may throw. *)
Definition Draw := stateT Canvas (sum Exn).

Definition update (f : Canvas -> Canvas) : Draw unit :=
  c <- get ;; put (f c).

(** Assigning [width] or [height] resets the bitmap and the context. *)
Definition set_width (w : Z) : Draw unit :=
  update (fun c => {| width := w; height := height c;
                      drawing := defaultDrawingState; saved := [];
                      currentPath := []; bitmap := [] |}).

Definition set_height (h : Z) : Draw unit :=
  update (fun c => {| width := width c; height := h;
                      drawing := defaultDrawingState; saved := [];
                      currentPath := []; bitmap := [] |}).

Definition paint (p : Paint) (c : Canvas) : Canvas :=
  {| width := width c; height := height c; drawing := drawing c;
     saved := saved c; currentPath := currentPath c;
     bitmap := bitmap c ++ [p] |}.

Definition with_drawing (d : DrawingState) (stack : list DrawingState)
  (c : Canvas) : Canvas :=
  {| width := width c; height := height c; drawing := d; saved := stack;
     currentPath := currentPath c; bitmap := bitmap c |}.

Definition with_path (p : Path) (c : Canvas) : Canvas :=
  {| width := width c; height := height c; drawing := drawing c;
     saved := saved c; currentPath := p; bitmap := bitmap c |}.

Definition clearRect (x y w h : Z) : Draw unit :=
  update (paint (Cleared x y w h)).

Definition save : Draw unit :=
  update (fun c => with_drawing (drawing c) (drawing c :: saved c) c).

(** [restore] on an empty stack does nothing. *)
Definition restore : Draw unit :=
  update (fun c => match saved c with
                   | [] => c
                   | d :: stack => with_drawing d stack c
                   end).

Definition beginPath : Draw unit := update (with_path []).

(** [arc] throws [IndexSizeError] on a negative radius. *)
Definition arc (x y r : Z) (a0 a1 : Angle) : Draw unit :=
  if (r <? 0)%Z then raise (DOMException "IndexSizeError")
  else update (fun c => with_path (currentPath c ++ [mkArc x y r a0 a1]) c).

Definition clip : Draw unit :=
  update (fun c =>
    with_drawing {| clipRegion := currentPath c :: clipRegion (drawing c);
                    strokeStyle := strokeStyle (drawing c);
                    lineWidth := lineWidth (drawing c) |} (saved c) c).

Definition set_strokeStyle (v : string) : Draw unit :=
  update (fun c =>
    with_drawing {| clipRegion := clipRegion (drawing c); strokeStyle := v;
                    lineWidth := lineWidth (drawing c) |} (saved c) c).

Definition set_lineWidth (v : Z) : Draw unit :=
  update (fun c =>
    with_drawing {| clipRegion := clipRegion (drawing c);
                    strokeStyle := strokeStyle (drawing c);
                    lineWidth := v |} (saved c) c).

Definition stroke : Draw unit :=
  update (fun c => paint (Stroked (currentPath c) (strokeStyle (drawing c))
                            (lineWidth (drawing c)) (clipRegion (drawing c))) c).

(** What the page cannot decide: whether a 2D context exists, how the
    image load ends, and whether a host call throws. *)
Inductive LoadOutcome :=
| Onload (w h : Z)
| Onerror.

Record Browser := mkBrowser {
  contextAvailable : bool;
  imageLoad : LoadOutcome;
  drawImageThrows : bool;
  toDataURLThrows : bool;
  appendChildThrows : bool
}.

Definition drawImage (b : Browser) (img : HTMLImageElement) (dx dy dw dh : Z)
  : Draw unit :=
  if drawImageThrows b then raise (DOMException "InvalidStateError")
  else update (fun c => paint (ImagePainted img dx dy dw dh
                                 (clipRegion (drawing c))) c).

(** The decoded PNG behind the data URL of [toDataURL("image/png", 1.0)]. *)
Record PNG := mkPNG {
  png_width : Z;
  png_height : Z;
  png_content : list Paint
}.

Definition toDataURL (b : Browser) : Draw PNG :=
  if toDataURLThrows b then raise (DOMException "SecurityError")
  else c <- get ;;
       ret {| png_width := width c; png_height := height c;
              png_content := bitmap c |}.

(* ===================================================================== *)
(** ** Effects visible outside the component state *)
(* ===================================================================== *)

(** A picked file: its MIME type, and what [reader.result] holds once
    it has been read as a data URL. *)
Record File := mkFile {
  type : jsstring;
  contents : option jsstring
}.

Inductive Effect :=
| Alert (msg : string)
| ConsoleError (label : string)
| ReadAsDataURL (f : File)
| Download (fileName : jsstring) (href : PNG).

(* ===================================================================== *)
(** ** [downloadPfp] *)
(* ===================================================================== *)

(** The template literal at the [fileName] binding. *)
Definition fileName (username : jsstring) : jsstring :=
  replaceOutside alnum (lit "_") username ++ lit "-octrafied-pfp.png".

(** From [createElement("canvas")] to [clearRect]. *)
Definition acquire (b : Browser) : Draw unit :=
  (if contextAvailable b then ret tt
   else raise (JSError "Canvas context not available")) ;;
  set_width 200 ;;
  set_height 200 ;;
  clearRect 0 0 200 200.

(** The body of [imageElement.onload]; an exception rejects the promise. *)
Definition onload (b : Browser) (imageElement : HTMLImageElement) : Draw unit :=
  save ;;
  beginPath ;;
  arc 100 100 90 Rad0 Rad2Pi ;;
  clip ;;
  drawImage b imageElement 10 10 180 180 ;;
  restore ;;
  set_strokeStyle "#0d0bda" ;;
  set_lineWidth 6 ;;
  beginPath ;;
  arc 100 100 90 Rad0 Rad2Pi ;;
  stroke.

(** [await processImage]: the load handler runs, or [onerror] rejects. *)
Definition processImage (b : Browser) (image : jsstring) : Draw unit :=
  match imageLoad b with
  | Onload w h => onload b (mkImage image w h)
  | Onerror => raise (JSError "Failed to load image")
  end.

(** The part after the [await]: name, encode, click. *)
Definition createDownload (b : Browser) (username : jsstring)
  : Draw (list Effect) :=
  href <- toDataURL b ;;
  (if appendChildThrows b then raise (DOMException "HierarchyRequestError")
   else ret tt) ;;
  ret [Download (fileName username) href].

(** An export suspended at the [await], with the values its closure
    captured. *)
Record Export := mkExport {
  canvasElement : Canvas;
  export_image : jsstring;
  export_username : jsstring
}.

(** The [catch] block. *)
Definition downloadFailed : list Effect :=
  [ConsoleError "Download failed:"; Alert "Failed to download PFP. Please try again."].

(** [downloadPfp] up to the [await]: the guard, the busy flag and the
    canvas.  A throw before the [await] runs [catch] and [finally] at
    once. *)
Definition downloadPfp_start (b : Browser) (s : Session)
  : Session * list Effect * option Export :=
  if negb (truthy_opt (image s)) || negb (truthy (trim (username s)))
  then (s, [], None)
  else
    let s1 := setIsDownloading true s in
    match runStateT (acquire b) createCanvas with
    | inl _ => (setIsDownloading false s1, downloadFailed, None)
    | inr (_, c) =>
        (s1, [],
         Some {| canvasElement := c;
                 export_image := match image s with Some i => i | None => [] end;
                 export_username := username s |})
    end.

(** [downloadPfp] from the [await] on, in whatever state the session is
    by then: the rest of [try], then [catch] on a throw, then
    [finally]. *)
Definition downloadPfp_settle (b : Browser) (j : Export) (s : Session)
  : Session * list Effect :=
  match runStateT (processImage b (export_image j) ;;
                   createDownload b (export_username j)) (canvasElement j) with
  | inl _ => (setIsDownloading false s, downloadFailed)
  | inr (effects, _) => (setIsDownloading false s, effects)
  end.

(** One export with nothing else happening during the [await]. *)
Definition downloadPfp (b : Browser) (s : Session) : Session * list Effect :=
  match downloadPfp_start b s with
  | (s1, effects, None) => (s1, effects)
  | (s1, effects, Some j) =>
      let (s2, effects') := downloadPfp_settle b j s1 in
      (s2, effects ++ effects')
  end.

(* ===================================================================== *)
(** ** The page: session, file readers in flight, exports in flight *)
(* ===================================================================== *)

Record App := mkApp {
  session : Session;
  readers : list File;
  exports : list Export
}.

Definition start : App :=
  {| session := initial; readers := []; exports := [] |}.

Definition with_session (s : Session) (a : App) : App :=
  {| session := s; readers := readers a; exports := exports a |}.

(** [handleImageUpload] on [e.target.files?.[0]].  Nothing in its [try]
    block throws in this model, so its [catch] is never entered. *)
Definition handleImageUpload (file : option File) (a : App) : App * list Effect :=
  match file with
  | Some f =>
      if negb (startsWith (lit "image/") (type f))
      then (a, [Alert "Please select a valid image file"])
      else ({| session := session a; readers := readers a ++ [f];
               exports := exports a |}, [ReadAsDataURL f])
  | None => (a, [])
  end.

Fixpoint remove_nth {A} (i : nat) (l : list A) : list A :=
  match i, l with
  | _, [] => []
  | O, _ :: r => r
  | S i', x :: r => x :: remove_nth i' r
  end.

(** [reader.onload] for the reader at position [i]: a falsy
    [reader.result] is dropped. *)
Definition reader_onload (i : nat) (a : App) : App * list Effect :=
  match nth_error (readers a) i with
  | Some f =>
      let s := if truthy_opt (contents f)
               then setImage (contents f) (session a)
               else session a in
      ({| session := s; readers := remove_nth i (readers a);
          exports := exports a |}, [])
  | None => (a, [])
  end.

(** [reader.onerror]. *)
Definition reader_onerror (i : nat) (a : App) : App * list Effect :=
  match nth_error (readers a) i with
  | Some _ =>
      ({| session := session a; readers := remove_nth i (readers a);
          exports := exports a |}, [Alert "Error reading file"])
  | None => (a, [])
  end.

(** A click on the download button. *)
Definition export_click (b : Browser) (a : App) : App * list Effect :=
  match downloadPfp_start b (session a) with
  | (s, effects, None) => (with_session s a, effects)
  | (s, effects, Some j) =>
      ({| session := s; readers := readers a; exports := exports a ++ [j] |},
       effects)
  end.

(** The image of the export at position [i] loads or fails to. *)
Definition export_settle (i : nat) (b : Browser) (a : App) : App * list Effect :=
  match nth_error (exports a) i with
  | Some j =>
      let (s, effects) := downloadPfp_settle b j (session a) in
      ({| session := s; readers := readers a;
          exports := remove_nth i (exports a) |}, effects)
  | None => (a, [])
  end.

Inductive Event :=
| Change (value : jsstring)
| SelectFile (file : option File)
| ReaderLoad (i : nat)
| ReaderError (i : nat)
| Submit
| Reset
| ClickDownload (b : Browser)
| ImageSettle (i : nat) (b : Browser).

(** Which events the rendered page can deliver.  The form, with its
    [maxLength={20}] text input, exists only while [!submitted]; the two
    buttons of the preview only while [submitted], the download button
    [disabled] while [isDownloading].  The submit button's own
    [disabled] expression is left out: [handleSubmit] is taken to run on
    any form submission. *)
Definition enabled (e : Event) (a : App) : bool :=
  match e with
  | Change value => negb (submitted (session a)) && (length value <=? 20)%nat
  | SelectFile _ => negb (submitted (session a))
  | ReaderLoad i => (i <? length (readers a))%nat
  | ReaderError i => (i <? length (readers a))%nat
  | Submit => negb (submitted (session a))
  | Reset => submitted (session a)
  | ClickDownload _ => submitted (session a) && negb (isDownloading (session a))
  | ImageSettle i _ => (i <? length (exports a))%nat
  end.

Definition step (e : Event) (a : App) : App * list Effect :=
  match e with
  | Change value => (with_session (setUsername value (session a)) a, [])
  | SelectFile file => handleImageUpload file a
  | ReaderLoad i => reader_onload i a
  | ReaderError i => reader_onerror i a
  | Submit => (with_session (handleSubmit (session a)) a, [])
  | Reset => (with_session (handleReset (session a)) a, [])
  | ClickDownload b => export_click b a
  | ImageSettle i b => export_settle i b a
  end.

Fixpoint run (es : list Event) (a : App) : App :=
  match es with
  | [] => a
  | e :: es' => run es' (fst (step e a))
  end.

(** Every event of [es] is enabled when its turn comes. *)
Fixpoint admissible (es : list Event) (a : App) : bool :=
  match es with
  | [] => true
  | e :: es' => enabled e a && admissible es' (fst (step e a))
  end.

Inductive reachable : App -> Prop :=
| reachable_start : reachable start
| reachable_step a e :
    reachable a -> enabled e a = true -> reachable (fst (step e a)).

(** The session invariant of the data model. *)
Definition session_ok (s : Session) : Prop :=
  submitted s = true ->
  trim (username s) <> [] /\ (length (username s) <= 20)%nat /\ image s <> None.

(** What holds of the page in every state, phase aside. *)
Definition app_ok (a : App) : Prop :=
  (length (username (session a)) <= 20)%nat /\
  image (session a) <> Some [] /\
  Forall (fun f => startsWith (lit "image/") (type f) = true) (readers a) /\
  Forall (fun j => canvasElement j = blank200 /\ export_image j <> [] /\
                   trim (export_username j) <> []) (exports a) /\
  (isDownloading (session a) = true ->
   submitted (session a) = true /\ exports a <> []) /\
  session_ok (session a).

(* ===================================================================== *)
(** ** [ErrorBoundary] *)
(* ===================================================================== *)

(** [handleError] on the [message] of a window ["error"] event. *)
Definition handleError (message : jsstring) (hasError : bool)
  : bool * list Effect :=
  if includes (lit "sender") message || includes (lit "wallet") message
  then (hasError, [])
  else (true, [ConsoleError "App error:"]).

Inductive View := Fallback | Children.

Definition render (hasError : bool) : View :=
  if hasError then Fallback else Children.

(** The fallback's button: [setHasError(false)]. *)
Definition tryAgain (hasError : bool) : bool := false.

(** [a] occurs in [s] as a contiguous run of code units. *)
Definition contains (p s : jsstring) : Prop :=
  exists pre post, s = pre ++ p ++ post.

(* ===================================================================== *)
(** ** Vocabulary of the statements *)
(* ===================================================================== *)

(** The messages of the [alert] calls among some effects. *)
Fixpoint alerts (effects : list Effect) : list string :=
  match effects with
  | [] => []
  | Alert msg :: r => msg :: alerts r
  | _ :: r => alerts r
  end.

(** The files handed to the download mechanism. *)
Fixpoint downloads (effects : list Effect) : list (jsstring * PNG) :=
  match effects with
  | [] => []
  | Download name href :: r => (name, href) :: downloads r
  | _ :: r => downloads r
  end.

(** No step of an export fails in browser [b]. *)
Definition succeeds (b : Browser) : bool :=
  contextAvailable b
  && match imageLoad b with Onload _ _ => true | Onerror => false end
  && negb (drawImageThrows b)
  && negb (toDataURLThrows b)
  && negb (appendChildThrows b).

(** The circle of the composite: centre (100,100), radius 90. *)
Definition circle : Path := [mkArc 100 100 90 Rad0 Rad2Pi].

(** The composite of a source image: the surface cleared, the image in
    the square from (10,10) to (190,190) under the circular clip, then
    the border with no clip. *)
Definition composite (img : HTMLImageElement) : list Paint :=
  [Cleared 0 0 200 200;
   ImagePainted img 10 10 180 180 [circle];
   Stroked circle "#0d0bda" 6 []].

(** The canvas once the load handler has run on [blank200]. *)
Definition composed (img : HTMLImageElement) : Canvas :=
  {| width := 200; height := 200;
     drawing := {| clipRegion := []; strokeStyle := "#0d0bda"; lineWidth := 6 |};
     saved := []; currentPath := circle; bitmap := composite img |}.

(* ===================================================================== *)
(** ** Sample inputs *)
(* ===================================================================== *)

Definition sampleURL : jsstring := lit "data:image/jpeg;base64,AAAA".

Definition jpeg : File :=
  {| type := lit "image/jpeg"; contents := Some sampleURL |}.

Definition txt : File :=
  {| type := lit "text/plain";
     contents := Some (lit "data:text/plain;base64,AAAA") |}.

(** A browser in which every step of the export works, decoding the
    image as 640 by 480. *)
Definition chrome : Browser :=
  {| contextAvailable := true; imageLoad := Onload 640 480;
     drawImageThrows := false; toDataURLThrows := false;
     appendChildThrows := false |}.

(** The same browser failing to decode the image. *)
Definition chrome_broken_image : Browser :=
  {| contextAvailable := true; imageLoad := Onerror;
     drawImageThrows := false; toDataURLThrows := false;
     appendChildThrows := false |}.

Definition alice_preview : Session :=
  {| username := lit "alice"; image := Some sampleURL; submitted := true;
     isDownloading := false |}.

(** Type a name, pick a JPEG, let it load. *)
Definition alice_form : list Event :=
  [Change (lit "alice"); SelectFile (Some jpeg); ReaderLoad 0].

(** ... and submit. *)
Definition alice_script : list Event := alice_form ++ [Submit].

(* ===================================================================== *)
(** ** The rendered controls *)
(* ===================================================================== *)

(** The [disabled] expression of the submit button. *)
Definition submitDisabled (s : Session) : bool :=
  negb (truthy (trim (username s))) || negb (truthy_opt (image s)).

(** The [disabled] expression of the download button. *)
Definition downloadDisabled (s : Session) : bool := isDownloading s.

(** The [src] of the preview's [<img>], [image || "/placeholder.svg"],
    when [{image && ...}] renders one. *)
Definition previewSrc (s : Session) : option jsstring :=
  if truthy_opt (image s)
  then Some (if truthy_opt (image s)
             then match image s with Some i => i | None => [] end
             else lit "/placeholder.svg")
  else None.

(** The error boundary's listener over a succession of error events. *)
Fixpoint handleErrors (messages : list jsstring) (hasError : bool) : bool :=
  match messages with
  | [] => hasError
  | m :: r => handleErrors r (fst (handleError m hasError))
  end.

(** The messages the listener returns on at once. *)
Definition ignored (message : jsstring) : bool :=
  includes (lit "sender") message || includes (lit "wallet") message.

(** The code units a download name is made of. *)
Definition fileNameUnit (c : N) : bool :=
  (alnum c || (c =? N_of_ascii "_") || (c =? N_of_ascii "-")
   || (c =? N_of_ascii "."))%N.

(** A second round on the page: an export is started, the page is reset
    while it is in flight, and a new session is taken up to a second
    export. *)
Definition two_exports_script : list Event :=
  alice_script ++ [ClickDownload chrome; Reset]
  ++ [Change (lit "bob"); SelectFile (Some jpeg); ReaderLoad 0; Submit;
      ClickDownload chrome].

(* ===================================================================== *)
(** ** Strings *)
(* ===================================================================== *)

Lemma startsWith_spec (p s : jsstring) :
  startsWith p s = true <-> exists rest, s = p ++ rest.
Proof.
  revert s. induction p as [|a p IH]; intros s; simpl.
  - split; [intros _; exists s; reflexivity | reflexivity].
  - destruct s as [|b s].
    + split; [discriminate | intros [rest H]; discriminate].
    + rewrite andb_true_iff, N.eqb_eq, IH. split.
      * intros [-> [rest ->]]. exists rest. reflexivity.
      * intros [rest H]. injection H as -> ->. split; [reflexivity | eauto].
Qed.

Lemma includes_spec (p s : jsstring) :
  includes p s = true <-> contains p s.
Proof.
  unfold contains. induction s as [|x s IH].
  - simpl. rewrite orb_false_r, startsWith_spec. split.
    + intros [rest H]. exists [], rest. exact H.
    + intros [pre [post H]]. destruct pre; [eauto | discriminate].
  - cbn [includes]. rewrite orb_true_iff, startsWith_spec, IH. split.
    + intros [[rest H] | [pre [post H]]].
      * exists [], rest. exact H.
      * exists (x :: pre), post. simpl. now rewrite H.
    + intros [pre [post H]]. destruct pre as [|y pre].
      * left. exists post. exact H.
      * right. simpl in H. injection H as -> ->. eauto.
Qed.

Lemma trimStart_all (s : jsstring) :
  trimStart s = [] <-> forallb isWhiteSpace s = true.
Proof.
  induction s as [|c s IH]; simpl.
  - tauto.
  - destruct (isWhiteSpace c); simpl; [exact IH | split; discriminate].
Qed.

Lemma trimStart_head (s : jsstring) c r :
  trimStart s = c :: r -> isWhiteSpace c = false.
Proof.
  induction s as [|d s IH]; simpl; [discriminate |].
  destruct (isWhiteSpace d) eqn:E; [exact IH |].
  intros H. injection H as -> _. exact E.
Qed.

Lemma forallb_rev {A} (f : A -> bool) (l : list A) :
  forallb f (rev l) = forallb f l.
Proof.
  induction l as [|x l IH]; simpl; [reflexivity |].
  rewrite forallb_app, IH. simpl. rewrite andb_true_r. apply andb_comm.
Qed.

(** [trim] leaves nothing exactly when every unit is white space. *)
Lemma trim_nil_iff (s : jsstring) :
  trim s = [] <-> forallb isWhiteSpace s = true.
Proof.
  unfold trim, trimEnd. split.
  - intros H.
    assert (H1 : trimStart (rev (trimStart s)) = []).
    { destruct (trimStart (rev (trimStart s))) as [|c l]; [reflexivity |].
      simpl in H. now destruct (rev l). }
    apply trimStart_all in H1. rewrite forallb_rev in H1.
    destruct (trimStart s) as [|c r] eqn:E.
    + now apply trimStart_all.
    + apply trimStart_head in E. simpl in H1. rewrite E in H1. discriminate.
  - intros H. apply trimStart_all in H. rewrite H. reflexivity.
Qed.

Lemma truthy_true (s : jsstring) : truthy s = true <-> s <> [].
Proof. destruct s; simpl; split; congruence. Qed.

Lemma truthy_false (s : jsstring) : truthy s = false <-> s = [].
Proof. destruct s; simpl; split; congruence. Qed.

Lemma alnum_spec (c : N) :
  alnum c = true <->
  (97 <= c <= 122 \/ 65 <= c <= 90 \/ 48 <= c <= 57)%N.
Proof.
  unfold alnum.
  rewrite !orb_true_iff, !andb_true_iff, !N.leb_le. tauto.
Qed.

(** With a one-unit replacement the substitution is a [map]. *)
Lemma replaceOutside_unit (cls : N -> bool) (r : N) (s : jsstring) :
  replaceOutside cls [r] s = map (fun c => if cls c then c else r) s.
Proof.
  unfold replaceOutside. induction s as [|c s IH]; simpl; [reflexivity |].
  rewrite IH. now destruct (cls c).
Qed.

(* ===================================================================== *)
(** ** The export *)
(* ===================================================================== *)

Lemma acquire_run (b : Browser) :
  runStateT (acquire b) createCanvas =
  if contextAvailable b then inr (tt, blank200)
  else inl (JSError "Canvas context not available").
Proof. unfold acquire. destruct (contextAvailable b); reflexivity. Qed.

Lemma onload_run (b : Browser) (img : HTMLImageElement) :
  runStateT (onload b img) blank200 =
  if drawImageThrows b then inl (DOMException "InvalidStateError")
  else inr (tt, composed img).
Proof. unfold onload, drawImage. destruct (drawImageThrows b); reflexivity. Qed.

(** The guard of [downloadPfp] passes exactly on a non-empty image and
    a user name that is not all white space. *)
Lemma guard_passes (s : Session) :
  negb (truthy_opt (image s)) || negb (truthy (trim (username s))) = false <->
  (exists i, image s = Some i /\ i <> []) /\ trim (username s) <> [].
Proof.
  rewrite orb_false_iff, !negb_false_iff, truthy_true.
  destruct (image s) as [i|]; simpl.
  - rewrite truthy_true. split.
    + intros [H1 H2]. eauto.
    + intros [[i' [E H1]] H2]. injection E as <-. tauto.
  - split; [intros [H _]; discriminate | intros [[i [E _]] _]; discriminate].
Qed.

Lemma start_run (b : Browser) (s : Session) (i : jsstring) :
  image s = Some i -> i <> [] -> trim (username s) <> [] ->
  downloadPfp_start b s =
  if contextAvailable b
  then (setIsDownloading true s, [],
        Some {| canvasElement := blank200; export_image := i;
                export_username := username s |})
  else (setIsDownloading false s, downloadFailed, None).
Proof.
  intros Hi Hne Hu. unfold downloadPfp_start.
  destruct (negb (truthy_opt (image s)) || negb (truthy (trim (username s)))) eqn:G.
  - exfalso. rewrite Hi in G. simpl in G.
    apply truthy_true in Hne, Hu. rewrite Hne, Hu in G. discriminate.
  - rewrite acquire_run, Hi. destruct (contextAvailable b); reflexivity.
Qed.

Lemma start_noop (b : Browser) (s : Session) :
  image s = None \/ trim (username s) = [] ->
  downloadPfp_start b s = (s, [], None).
Proof.
  intros H. unfold downloadPfp_start.
  destruct H as [H | H]; rewrite H; simpl; [reflexivity |].
  now rewrite orb_true_r.
Qed.

(** What a settling export does, whatever canvas it holds. *)
Lemma settle_any (b : Browser) (j : Export) (s : Session) :
  fst (downloadPfp_settle b j s) = setIsDownloading false s /\
  (snd (downloadPfp_settle b j s) = downloadFailed \/
   exists png,
     snd (downloadPfp_settle b j s) = [Download (fileName (export_username j)) png]).
Proof.
  unfold downloadPfp_settle, processImage, onload, drawImage, createDownload,
    toDataURL.
  destruct (imageLoad b) as [w h|]; [| split; [reflexivity | left; reflexivity]].
  destruct (drawImageThrows b), (toDataURLThrows b), (appendChildThrows b);
    simpl; (split; [reflexivity |]); try (left; reflexivity).
  right. eexists. reflexivity.
Qed.

(** What a settling export does on the canvas [downloadPfp] prepared. *)
Lemma settle_run (b : Browser) (j : Export) (s : Session) :
  canvasElement j = blank200 ->
  downloadPfp_settle b j s =
  (setIsDownloading false s,
   match imageLoad b with
   | Onload w h =>
       if drawImageThrows b || toDataURLThrows b || appendChildThrows b
       then downloadFailed
       else [Download (fileName (export_username j))
               (mkPNG 200 200 (composite (mkImage (export_image j) w h)))]
   | Onerror => downloadFailed
   end).
Proof.
  intros Hc. unfold downloadPfp_settle, processImage, createDownload, toDataURL.
  rewrite Hc.
  destruct (imageLoad b) as [w h|]; [| reflexivity].
  unfold onload, drawImage.
  destruct (drawImageThrows b), (toDataURLThrows b), (appendChildThrows b);
    reflexivity.
Qed.

(* ===================================================================== *)
(** ** Invariants of the page *)
(* ===================================================================== *)

Lemma Forall_remove_nth {A} (P : A -> Prop) (i : nat) (l : list A) :
  Forall P l -> Forall P (remove_nth i l).
Proof.
  intros H. revert i. induction H as [|x l Hx Hl IH]; intros [|i]; simpl; auto.
Qed.

Lemma nth_error_Forall {A} (P : A -> Prop) (i : nat) (l : list A) x :
  Forall P l -> nth_error l i = Some x -> P x.
Proof.
  intros H E. apply nth_error_In in E. rewrite Forall_forall in H. auto.
Qed.

Lemma with_session_same (a : App) : with_session (session a) a = a.
Proof. now destruct a. Qed.

Lemma app_ok_start : app_ok start.
Proof.
  unfold app_ok, session_ok, start; simpl.
  repeat split; try constructor; try congruence; try discriminate; lia.
Qed.

Ltac split_ok :=
  unfold app_ok, session_ok in *;
  cbn [session readers exports username image submitted isDownloading
       with_session setUsername setImage setSubmitted setIsDownloading
       handleReset initial fst snd length] in *;
  repeat match goal with
         | H : _ /\ _ |- _ => destruct H
         end.

Ltac use_session_ok :=
  try solve [ match goal with
              | H : _ = true -> _ |- _ => apply H; assumption
              end ].

Lemma app_ok_upload (a : App) (file : option File) :
  app_ok a -> app_ok (fst (handleImageUpload file a)).
Proof.
  intros H. unfold handleImageUpload.
  destruct file as [f|]; [| exact H].
  destruct (startsWith (lit "image/") (type f)) eqn:E; simpl; [| exact H].
  split_ok. repeat split; auto; use_session_ok.
  apply Forall_app. split; [assumption | repeat constructor; exact E].
Qed.

Lemma app_ok_reader_onload (a : App) (i : nat) :
  app_ok a -> app_ok (fst (reader_onload i a)).
Proof.
  intros H. unfold reader_onload.
  destruct (nth_error (readers a) i) as [f|] eqn:E; [| exact H].
  split_ok.
  destruct (contents f) as [[|c r]|]; simpl;
    repeat split; auto using Forall_remove_nth; try congruence;
    use_session_ok.
Qed.

Lemma app_ok_reader_onerror (a : App) (i : nat) :
  app_ok a -> app_ok (fst (reader_onerror i a)).
Proof.
  intros H. unfold reader_onerror.
  destruct (nth_error (readers a) i) as [f|] eqn:E; [| exact H].
  split_ok. repeat split; auto using Forall_remove_nth;
    use_session_ok.
Qed.

Lemma app_ok_submit (a : App) :
  app_ok a -> app_ok (with_session (handleSubmit (session a)) a).
Proof.
  intros H. unfold handleSubmit.
  destruct (truthy (trim (username (session a))) && truthy_opt (image (session a)))
    eqn:G; [| now rewrite with_session_same].
  apply andb_true_iff in G. destruct G as [G1 G2]. apply truthy_true in G1.
  split_ok. repeat split; auto; use_session_ok.
  intros E. rewrite E in G2. discriminate.
Qed.

Lemma app_ok_click (a : App) (b : Browser) :
  app_ok a -> submitted (session a) = true ->
  app_ok (fst (export_click b a)).
Proof.
  intros H Hs. unfold export_click.
  assert (Hg : exists i, image (session a) = Some i /\ i <> [] /\
                         trim (username (session a)) <> []).
  { split_ok.
    match goal with
    | H : submitted _ = true -> _ |- _ => destruct (H Hs) as (Hu & _ & Hi)
    end.
    destruct (image (session a)) as [i|]; [| congruence].
    exists i. repeat split; [intros -> | assumption].
    match goal with
    | H : Some [] <> Some [] |- _ => now apply H
    end. }
  destruct Hg as (i & Hi & Hne & Hu).
  rewrite (start_run b _ i Hi Hne Hu).
  destruct (contextAvailable b); split_ok; repeat split; auto; use_session_ok;
    try discriminate.
  - apply Forall_app. split; [assumption |]. repeat constructor; assumption.
  - now destruct (exports a).
Qed.

Lemma app_ok_settle (a : App) (i : nat) (b : Browser) :
  app_ok a -> app_ok (fst (export_settle i b a)).
Proof.
  intros H. unfold export_settle.
  destruct (nth_error (exports a) i) as [j|]; [| exact H].
  destruct (downloadPfp_settle b j (session a)) as [s effects] eqn:E.
  assert (Hs : s = setIsDownloading false (session a)).
  { pose proof (settle_any b j (session a)) as [H1 _]. now rewrite E in H1. }
  subst s. split_ok.
  repeat split; auto using Forall_remove_nth; try discriminate;
    use_session_ok.
Qed.

(** Every event the page can deliver keeps [app_ok]. *)
Lemma app_ok_step (a : App) (e : Event) :
  app_ok a -> enabled e a = true -> app_ok (fst (step e a)).
Proof.
  intros H En. destruct e; simpl in *.
  - apply andb_true_iff in En. destruct En as [E1 E2].
    apply negb_true_iff in E1. apply Nat.leb_le in E2.
    split_ok. repeat split; auto; use_session_ok; congruence.
  - now apply app_ok_upload.
  - now apply app_ok_reader_onload.
  - now apply app_ok_reader_onerror.
  - now apply app_ok_submit.
  - split_ok. repeat split; auto; try discriminate; simpl; lia.
  - apply andb_true_iff in En. destruct En as [E1 _].
    now apply app_ok_click.
  - now apply app_ok_settle.
Qed.

Lemma reachable_ok (a : App) : reachable a -> app_ok a.
Proof.
  induction 1 as [|a e _ IH En]; [exact app_ok_start | now apply app_ok_step].
Qed.

Lemma reachable_run (es : list Event) (a : App) :
  reachable a -> admissible es a = true -> reachable (run es a).
Proof.
  revert a. induction es as [|e es IH]; intros a Ha H; simpl; [exact Ha |].
  apply andb_true_iff in H. destruct H as [H1 H2].
  apply IH; [now apply reachable_step | exact H2].
Qed.

(* ===================================================================== *)
(** ** One uninterrupted export *)
(* ===================================================================== *)

Lemma downloadPfp_noop (b : Browser) (s : Session) :
  image s = None \/ trim (username s) = [] -> downloadPfp b s = (s, []).
Proof.
  intros H. unfold downloadPfp. now rewrite (start_noop b s H).
Qed.

Lemma downloadPfp_run (b : Browser) (s : Session) (i : jsstring) :
  image s = Some i -> i <> [] -> trim (username s) <> [] ->
  downloadPfp b s =
  (setIsDownloading false s,
   match imageLoad b with
   | Onload w h =>
       if succeeds b
       then [Download (fileName (username s))
               (mkPNG 200 200 (composite (mkImage i w h)))]
       else downloadFailed
   | Onerror => downloadFailed
   end).
Proof.
  intros Hi Hne Hu. unfold downloadPfp, succeeds.
  rewrite (start_run b s i Hi Hne Hu).
  destruct (contextAvailable b).
  - rewrite settle_run by reflexivity. cbn [export_username export_image app].
    destruct (imageLoad b) as [w h|]; [| reflexivity].
    destruct (drawImageThrows b), (toDataURLThrows b), (appendChildThrows b);
      reflexivity.
  - now destruct (imageLoad b).
Qed.

(** The guard of [handleSubmit], when no empty string is stored as
    image. *)
Lemma submit_guard (s : Session) :
  image s <> Some [] ->
  (truthy (trim (username s)) && truthy_opt (image s) = true <->
   trim (username s) <> [] /\ image s <> None).
Proof.
  intros Hne. rewrite andb_true_iff, truthy_true.
  destruct (image s) as [[|c r]|]; cbn [truthy_opt truthy].
  - now contradiction Hne.
  - split; intros [H _]; split; (assumption || reflexivity || discriminate).
  - split; intros [_ H]; [discriminate | now contradiction H].
Qed.

(** A session in which the guard of [downloadPfp] fails or passes. *)
Lemma guard_cases (s : Session) :
  (image s = None \/ image s = Some [] \/ trim (username s) = []) \/
  (exists i, image s = Some i /\ i <> [] /\ trim (username s) <> []).
Proof.
  destruct (image s) as [[|c r]|]; auto.
  destruct (trim (username s)) as [|d t]; auto.
  right. exists (c :: r). repeat split; discriminate.
Qed.

Lemma downloadPfp_noop_empty (b : Browser) (s : Session) :
  image s = Some [] -> downloadPfp b s = (s, []).
Proof.
  intros H. unfold downloadPfp, downloadPfp_start. now rewrite H.
Qed.

(** Drawing the border before [restore] would clip it. *)
Remark stroke_before_restore_is_clipped :
  runStateT (save ;; beginPath ;; arc 100 100 90 Rad0 Rad2Pi ;; clip ;; stroke)
            blank200 =
  inr (tt, {| width := 200; height := 200;
              drawing := {| clipRegion := [circle]; strokeStyle := "#000000";
                            lineWidth := 1 |};
              saved := [defaultDrawingState]; currentPath := circle;
              bitmap := [Cleared 0 0 200 200;
                         Stroked circle "#000000" 1 [circle]] |}).
Proof. reflexivity. Qed.

(** The file a settling export hands out in a run of the page. *)
Lemma export_settle_download (a : App) (k : nat) (b : Browser) name png :
  reachable a ->
  In (name, png) (downloads (snd (export_settle k b a))) ->
  exists j w h,
    nth_error (exports a) k = Some j /\ imageLoad b = Onload w h /\
    name = fileName (export_username j) /\
    png = mkPNG 200 200 (composite (mkImage (export_image j) w h)).
Proof.
  intros Hr. unfold export_settle.
  destruct (nth_error (exports a) k) as [j|] eqn:E; [| intros []].
  apply reachable_ok in Hr. destruct Hr as (_ & _ & _ & He & _).
  destruct (nth_error_Forall _ _ _ _ He E) as (Hc & _ & _).
  rewrite (settle_run b j (session a) Hc). cbn [snd].
  destruct (imageLoad b) as [w h|]; [| intros []].
  destruct (drawImageThrows b || toDataURLThrows b || appendChildThrows b);
    [intros [] |].
  intros [E' | []]. injection E' as <- <-. exists j, w, h. auto.
Qed.

(** The file an uninterrupted export hands out. *)
Lemma downloadPfp_download (b : Browser) (s : Session) name png :
  In (name, png) (downloads (snd (downloadPfp b s))) ->
  exists i w h,
    image s = Some i /\ imageLoad b = Onload w h /\
    name = fileName (username s) /\
    png = mkPNG 200 200 (composite (mkImage i w h)).
Proof.
  intros Hin.
  destruct (guard_cases s) as [[H | [H | H]] | (i & Hi & Hne & Hu)].
  - rewrite downloadPfp_noop in Hin by auto. destruct Hin.
  - rewrite downloadPfp_noop_empty in Hin by auto. destruct Hin.
  - rewrite downloadPfp_noop in Hin by auto. destruct Hin.
  - rewrite (downloadPfp_run b s i Hi Hne Hu) in Hin.
    destruct (imageLoad b) as [w h|]; [| destruct Hin].
    destruct (succeeds b); [| destruct Hin].
    destruct Hin as [E | []]. injection E as <- <-.
    exists i, w, h. auto.
Qed.

(* ===================================================================== *)
(** ** Properties of the specification *)
(* ===================================================================== *)

(** C1.  Once the source image has loaded, the load handler run on the
    200 by 200 surface paints, in this order, the image into the square
    from (10,10) to (190,190) (180 by 180 whatever the image's own
    size) under the circular clip of centre (100,100) and radius 90,
    and then, the saved state restored and the clip gone, the circle of
    the same centre and radius stroked 6 wide in [#0d0bda].  Every file
    an export hands out, alone or in any run of the page, is that
    composite, 200 by 200. *)
Theorem downloadPfp_composite :
  (forall b i w h,
      imageLoad b = Onload w h -> drawImageThrows b = false ->
      runStateT (processImage b i) blank200
      = inr (tt, composed (mkImage i w h))) /\
  (forall b s i w h,
      image s = Some i -> i <> [] -> trim (username s) <> [] ->
      imageLoad b = Onload w h -> succeeds b = true ->
      downloads (snd (downloadPfp b s))
      = [(fileName (username s), mkPNG 200 200 (composite (mkImage i w h)))]) /\
  (forall b s name png,
      In (name, png) (downloads (snd (downloadPfp b s))) ->
      exists i w h,
        image s = Some i /\ imageLoad b = Onload w h /\
        png = mkPNG 200 200 (composite (mkImage i w h))) /\
  (forall a k b name png,
      reachable a ->
      In (name, png) (downloads (snd (export_settle k b a))) ->
      png_width png = 200%Z /\ png_height png = 200%Z /\
      exists j w h,
        nth_error (exports a) k = Some j /\ imageLoad b = Onload w h /\
        png_content png = composite (mkImage (export_image j) w h)).
Proof.
  split; [| split; [| split]].
  - intros b i w h Hl Hd. unfold processImage. rewrite Hl, onload_run, Hd.
    reflexivity.
  - intros b s i w h Hi Hne Hu Hl Hs.
    rewrite (downloadPfp_run b s i Hi Hne Hu), Hl, Hs. reflexivity.
  - intros b s name png Hin.
    destruct (downloadPfp_download b s name png Hin) as (i & w & h & H).
    exists i, w, h. tauto.
  - intros a k b name png Hr Hin.
    destruct (export_settle_download a k b name png Hr Hin)
      as (j & w & h & Hj & Hl & _ & ->).
    repeat split; try reflexivity. exists j, w, h. auto.
Qed.

Lemma alice_form_reachable : reachable (run alice_form start).
Proof. apply reachable_run; [exact reachable_start | reflexivity]. Qed.

Lemma alice_reachable : reachable (run alice_script start).
Proof. apply reachable_run; [exact reachable_start | reflexivity]. Qed.

Lemma alice_exporting :
  reachable (run (alice_script ++ [ClickDownload chrome]) start).
Proof. apply reachable_run; [exact reachable_start | reflexivity]. Qed.

Lemma downloadPfp_composite_witness :
  downloads (snd (downloadPfp chrome alice_preview))
  = [(lit "alice-octrafied-pfp.png",
      mkPNG 200 200 (composite (mkImage sampleURL 640 480)))] /\
  (png_width (mkPNG 200 200 (composite (mkImage sampleURL 640 480))) = 200%Z /\
   png_height (mkPNG 200 200 (composite (mkImage sampleURL 640 480))) = 200%Z /\
   exists j w h,
     nth_error (exports (run (alice_script ++ [ClickDownload chrome]) start)) 0
     = Some j /\
     imageLoad chrome = Onload w h /\
     png_content (mkPNG 200 200 (composite (mkImage sampleURL 640 480)))
     = composite (mkImage (export_image j) w h)).
Proof.
  split.
  - apply (proj1 (proj2 downloadPfp_composite)
             chrome alice_preview sampleURL 640%Z 480%Z);
      [reflexivity | discriminate | discriminate | reflexivity | reflexivity].
  - apply (proj2 (proj2 (proj2 downloadPfp_composite))
             (run (alice_script ++ [ClickDownload chrome]) start) 0%nat chrome
             (lit "alice-octrafied-pfp.png")).
    + exact alice_exporting.
    + left. reflexivity.
Defined.

(** C2.  The download is named after the user name with every code unit
    outside [a-z], [A-Z] and [0-9] turned into an underscore, followed by
    [-octrafied-pfp.png]; so for every file an export hands out, alone
    or in a run of the page.  The name keeps the length of the user
    name, and the two sample names come out as stated. *)
Theorem downloadPfp_fileName :
  (forall u,
      fileName u
      = map (fun c => if alnum c then c else N_of_ascii "_") u
        ++ lit "-octrafied-pfp.png") /\
  (forall c,
      alnum c = true <->
      (N_of_ascii "a" <= c <= N_of_ascii "z" \/
       N_of_ascii "A" <= c <= N_of_ascii "Z" \/
       N_of_ascii "0" <= c <= N_of_ascii "9")%N) /\
  (forall b s name png,
      In (name, png) (downloads (snd (downloadPfp b s))) ->
      name = fileName (username s)) /\
  (forall a k b name png,
      reachable a ->
      In (name, png) (downloads (snd (export_settle k b a))) ->
      exists j, nth_error (exports a) k = Some j /\
                name = fileName (export_username j)) /\
  fileName (lit "ray@0x!") = lit "ray_0x_-octrafied-pfp.png" /\
  fileName (lit "alice") = lit "alice-octrafied-pfp.png".
Proof.
  split; [| split; [| split; [| split; [| split]]]].
  - intros u. unfold fileName. f_equal. apply replaceOutside_unit.
  - intros c. apply alnum_spec.
  - intros b s name png Hin.
    destruct (downloadPfp_download b s name png Hin) as (i & w & h & H).
    tauto.
  - intros a k b name png Hr Hin.
    destruct (export_settle_download a k b name png Hr Hin)
      as (j & w & h & Hj & _ & Hn & _).
    exists j. auto.
  - reflexivity.
  - reflexivity.
Qed.

Lemma downloadPfp_fileName_witness :
  lit "alice-octrafied-pfp.png" = fileName (username alice_preview).
Proof.
  apply (proj1 (proj2 (proj2 downloadPfp_fileName)) chrome alice_preview
           (lit "alice-octrafied-pfp.png")
           (mkPNG 200 200 (composite (mkImage sampleURL 640 480)))).
  left. reflexivity.
Defined.

(** C3.  In every state of the page, [handleSubmit] leaves the session
    previewing exactly when the trimmed user name is not empty and an
    image is stored; it then only sets [submitted].  With no image, or a
    user name that is empty or all white space, it changes nothing, and
    an editing session keeps editing. *)
Theorem handleSubmit_iff (a : App) :
  reachable a ->
  (phase (handleSubmit (session a)) = Previewing <->
   trim (username (session a)) <> [] /\ image (session a) <> None) /\
  (trim (username (session a)) <> [] /\ image (session a) <> None ->
   handleSubmit (session a) = setSubmitted true (session a)) /\
  (trim (username (session a)) = [] \/
   forallb isWhiteSpace (username (session a)) = true \/
   image (session a) = None ->
   handleSubmit (session a) = session a /\
   (phase (session a) = Editing ->
    phase (handleSubmit (session a)) = Editing)).
Proof.
  intros Hr. apply reachable_ok in Hr.
  destruct Hr as (_ & Hne & _ & _ & _ & Hok).
  pose proof (submit_guard (session a) Hne) as G.
  unfold session_ok in Hok. unfold handleSubmit.
  destruct (truthy (trim (username (session a)))
            && truthy_opt (image (session a))) eqn:E.
  - pose proof (proj1 G eq_refl) as [Hu Hi].
    split; [| split].
    + split; [intros _; now split | reflexivity].
    + reflexivity.
    + intros [H | [H | H]]; [| apply trim_nil_iff in H |]; contradiction.
  - split; [| split].
    + unfold phase. split.
      * destruct (submitted (session a)); [| discriminate].
        intros _. destruct (Hok eq_refl) as (Hu & _ & Hi). now split.
      * intros H. apply G in H. discriminate.
    + intros H. apply G in H. discriminate.
    + intros _. split; [reflexivity | trivial].
Qed.

Lemma handleSubmit_iff_witness :
  phase (handleSubmit (session (run alice_form start))) = Previewing /\
  handleSubmit (session start) = session start.
Proof.
  split.
  - apply (proj1 (handleSubmit_iff (run alice_form start) alice_form_reachable)).
    split; vm_compute; discriminate.
  - apply (proj2 (proj2 (handleSubmit_iff start reachable_start))).
    left. reflexivity.
Defined.

(** C4.  A picked file whose MIME type does not begin with [image/] is
    refused: the one effect is the alert, no reader is started, and the
    page, stored image included, is as before. *)
Theorem handleImageUpload_rejects_non_image (f : File) (a : App) :
  ~ (exists rest, type f = lit "image/" ++ rest) ->
  handleImageUpload (Some f) a = (a, [Alert "Please select a valid image file"]) /\
  step (SelectFile (Some f)) a = (a, [Alert "Please select a valid image file"]) /\
  image (session (fst (step (SelectFile (Some f)) a))) = image (session a).
Proof.
  intros H.
  assert (E : startsWith (lit "image/") (type f) = false).
  { destruct (startsWith (lit "image/") (type f)) eqn:E; [| reflexivity].
    apply startsWith_spec in E. contradiction. }
  cbn [step]. unfold handleImageUpload. rewrite E. cbn [negb fst].
  repeat split.
Qed.

Lemma handleImageUpload_rejects_non_image_witness :
  handleImageUpload (Some txt) (run alice_form start)
  = (run alice_form start, [Alert "Please select a valid image file"]).
Proof.
  apply (handleImageUpload_rejects_non_image txt (run alice_form start)).
  intros [rest H]. vm_compute in H. discriminate H.
Defined.

(** C5.  An export never leaves the busy flag set.  Whatever the state
    of the session when the image load settles, and whether the rest of
    the export succeeds or throws, [isDownloading] is false afterwards;
    a failure shows exactly one alert and hands out no file, a success
    shows none.  In every state of the page an uninterrupted export ends
    with the flag false, and whenever the flag is set an export is still
    in flight whose settling clears it. *)
Theorem downloadPfp_never_stuck :
  (forall b j s,
      isDownloading (fst (downloadPfp_settle b j s)) = false /\
      (alerts (snd (downloadPfp_settle b j s)) = [] /\
       length (downloads (snd (downloadPfp_settle b j s))) = 1%nat
       \/
       alerts (snd (downloadPfp_settle b j s))
       = ["Failed to download PFP. Please try again."%string] /\
       downloads (snd (downloadPfp_settle b j s)) = [])) /\
  (forall b s i,
      image s = Some i -> i <> [] -> trim (username s) <> [] ->
      isDownloading (fst (downloadPfp b s)) = false /\
      (succeeds b = true -> alerts (snd (downloadPfp b s)) = []) /\
      (succeeds b = false ->
       alerts (snd (downloadPfp b s))
       = ["Failed to download PFP. Please try again."%string] /\
       downloads (snd (downloadPfp b s)) = [])) /\
  (forall a b,
      reachable a -> isDownloading (fst (downloadPfp b (session a))) = false) /\
  (forall a,
      reachable a -> isDownloading (session a) = true ->
      exports a <> [] /\
      forall k b,
        (k < length (exports a))%nat ->
        enabled (ImageSettle k b) a = true /\
        isDownloading (session (fst (step (ImageSettle k b) a))) = false).
Proof.
  split; [| split; [| split]].
  - intros b j s. destruct (settle_any b j s) as [H1 [H2 | [png H2]]];
      rewrite H1, H2; (split; [reflexivity |]); [right | left]; now split.
  - intros b s i Hi Hne Hu. rewrite (downloadPfp_run b s i Hi Hne Hu).
    cbn [fst snd]. split; [reflexivity |].
    destruct (imageLoad b) as [w h|] eqn:El.
    + destruct (succeeds b); split; (discriminate || reflexivity || now split).
    + assert (Es : succeeds b = false).
      { unfold succeeds. rewrite El. now rewrite andb_false_r. }
      rewrite Es. split; [discriminate | now split].
  - intros a b Hr. apply reachable_ok in Hr.
    destruct Hr as (_ & Hne & _ & _ & Hb & Hok).
    destruct (guard_cases (session a)) as [H | (i & Hi & Hn & Hu)].
    + assert (E : downloadPfp b (session a) = (session a, [])).
      { destruct H as [H | [H | H]];
          [apply downloadPfp_noop | contradiction | apply downloadPfp_noop];
          auto. }
      rewrite E. cbn [fst].
      destruct (isDownloading (session a)) eqn:Ed; [| reflexivity].
      destruct (Hb eq_refl) as [Hs _].
      destruct (Hok Hs) as (Hu & _ & Hi).
      destruct H as [H | [H | H]]; contradiction.
    + now rewrite (downloadPfp_run b _ i Hi Hn Hu).
  - intros a Hr Hd. apply reachable_ok in Hr.
    destruct Hr as (_ & _ & _ & _ & Hb & _).
    destruct (Hb Hd) as [_ He]. split; [exact He |].
    intros k b Hk. cbn [enabled step]. split; [now apply Nat.ltb_lt |].
    unfold export_settle.
    destruct (nth_error (exports a) k) as [j|] eqn:E.
    + destruct (downloadPfp_settle b j (session a)) as [s effects] eqn:Es.
      cbn [fst session].
      pose proof (settle_any b j (session a)) as [H1 _].
      rewrite Es in H1. cbn [fst] in H1. now subst s.
    + apply nth_error_None in E. lia.
Qed.

Lemma downloadPfp_never_stuck_witness :
  (isDownloading (fst (downloadPfp chrome_broken_image alice_preview)) = false /\
   alerts (snd (downloadPfp chrome_broken_image alice_preview))
   = ["Failed to download PFP. Please try again."%string]) /\
  isDownloading
    (session (fst (step (ImageSettle 0 chrome_broken_image)
                     (run (alice_script ++ [ClickDownload chrome]) start))))
  = false.
Proof.
  split.
  - destruct (proj1 (proj2 downloadPfp_never_stuck)
                chrome_broken_image alice_preview sampleURL)
      as (H1 & _ & H2);
      [reflexivity | discriminate | vm_compute; discriminate |].
    split; [exact H1 | exact (proj1 (H2 eq_refl))].
  - apply (proj2 (proj2 (proj2 downloadPfp_never_stuck))
             (run (alice_script ++ [ClickDownload chrome]) start)
             alice_exporting eq_refl).
    vm_compute. lia.
Defined.

(** C6.  [handleReset] puts the session back to its initial state, the
    user name empty, no image, editing, the busy flag cleared, whatever
    the state before; doing it twice is doing it once. *)
Theorem handleReset_idempotent (s : Session) :
  handleReset s = initial /\
  username (handleReset s) = [] /\
  image (handleReset s) = None /\
  phase (handleReset s) = Editing /\
  isDownloading (handleReset s) = false /\
  handleReset (handleReset s) = handleReset s.
Proof. repeat split. Qed.

(** C7.  The session invariant: a previewing session has a user name
    that is not all white space and at most 20 units long, and a
    non-empty image.  It holds at the start, every event the page can
    deliver (typing, picking a file, a reader settling, submit, reset,
    a click on download, an export settling) keeps it, and so it holds
    in every state of the page, before and after every step. *)
Theorem session_invariant :
  app_ok start /\
  (forall a e, app_ok a -> enabled e a = true -> app_ok (fst (step e a))) /\
  (forall a, app_ok a -> session_ok (session a)) /\
  (forall a e,
      reachable a -> enabled e a = true ->
      session_ok (session a) /\ session_ok (session (fst (step e a)))) /\
  (forall a,
      reachable a -> phase (session a) = Previewing ->
      trim (username (session a)) <> [] /\
      (length (username (session a)) <= 20)%nat /\
      exists i, image (session a) = Some i /\ i <> []).
Proof.
  split; [exact app_ok_start |].
  split; [exact app_ok_step |].
  split; [intros a H; apply H |].
  split.
  - intros a e Hr En. split.
    + apply (reachable_ok a Hr).
    + apply (reachable_ok _ (reachable_step a e Hr En)).
  - intros a Hr Hp. apply reachable_ok in Hr.
    destruct Hr as (_ & Hne & _ & _ & _ & Hok).
    assert (Hs : submitted (session a) = true).
    { unfold phase in Hp. now destruct (submitted (session a)). }
    destruct (Hok Hs) as (Hu & Hl & Hi).
    repeat split; try assumption.
    destruct (image (session a)) as [i|]; [| contradiction].
    exists i. split; [reflexivity |]. intros ->. now apply Hne.
Qed.

Lemma session_invariant_witness :
  trim (username (session (run alice_script start))) <> [] /\
  (length (username (session (run alice_script start))) <= 20)%nat /\
  exists i, image (session (run alice_script start)) = Some i /\ i <> [].
Proof.
  apply (proj2 (proj2 (proj2 (proj2 session_invariant)))
           (run alice_script start) alice_reachable).
  reflexivity.
Defined.

(** C8.  The text field hands [setUsername] any value of at most 20
    units while the form is shown; the value is stored as it is, white
    space included, nothing else changes, and nothing is reported. *)
Theorem setUsername_verbatim (v : jsstring) (a : App) :
  (length v <= 20)%nat -> phase (session a) = Editing ->
  enabled (Change v) a = true /\
  step (Change v) a = (with_session (setUsername v (session a)) a, []) /\
  username (session (fst (step (Change v) a))) = v /\
  image (session (fst (step (Change v) a))) = image (session a) /\
  submitted (session (fst (step (Change v) a))) = submitted (session a) /\
  isDownloading (session (fst (step (Change v) a)))
  = isDownloading (session a).
Proof.
  intros Hl Hp. cbn [enabled step fst session with_session setUsername
                     username image submitted isDownloading].
  repeat split.
  unfold phase in Hp. destruct (submitted (session a)); [discriminate |].
  cbn [negb andb]. now apply Nat.leb_le.
Qed.

Lemma setUsername_verbatim_witness :
  username (session (fst (step (Change (lit "  bob ")) start))) = lit "  bob ".
Proof.
  apply (setUsername_verbatim (lit "  bob ") start);
    [vm_compute; lia | reflexivity].
Defined.

(** C9.  The error boundary's listener ignores an error whose message
    contains [sender] or [wallet]: the state is as before and nothing is
    logged.  Any other error sets [hasError], which replaces the page by
    the fallback; the fallback's button clears it and the page is shown
    again. *)
Theorem ErrorBoundary_filter (message : jsstring) (hasError : bool) :
  (contains (lit "sender") message \/ contains (lit "wallet") message ->
   handleError message hasError = (hasError, [])) /\
  (~ contains (lit "sender") message -> ~ contains (lit "wallet") message ->
   handleError message hasError = (true, [ConsoleError "App error:"]) /\
   render (fst (handleError message hasError)) = Fallback) /\
  render (tryAgain (fst (handleError message hasError))) = Children.
Proof.
  unfold handleError.
  destruct (includes (lit "sender") message) eqn:Es;
    destruct (includes (lit "wallet") message) eqn:Ew;
    cbn [orb]; (split; [| split]); try reflexivity;
    try (intros _; reflexivity).
  - intros Hs _. apply includes_spec in Es. contradiction.
  - intros Hs _. apply includes_spec in Es. contradiction.
  - intros _ Hw. apply includes_spec in Ew. contradiction.
  - intros [H | H]; apply includes_spec in H; congruence.
  - intros _ _. split; reflexivity.
Qed.

Lemma ErrorBoundary_filter_witness :
  handleError (lit "no wallet found") false = (false, []) /\
  render (fst (handleError (lit "x is not defined") false)) = Fallback.
Proof.
  split.
  - apply (proj1 (ErrorBoundary_filter (lit "no wallet found") false)).
    right. exists (lit "no "), (lit " found"). reflexivity.
  - apply (proj1 (proj2 (ErrorBoundary_filter (lit "x is not defined") false)));
      intros H; apply includes_spec in H; vm_compute in H; discriminate H.
Defined.

(** C10.  With no image stored, or a user name that trims to nothing,
    [downloadPfp] returns at its guard: the session is as before, the
    busy flag untouched, nothing is alerted or handed out, and no export
    is left in flight. *)
Theorem downloadPfp_guard_noop (b : Browser) (a : App) :
  image (session a) = None \/ trim (username (session a)) = [] ->
  downloadPfp_start b (session a) = (session a, [], None) /\
  downloadPfp b (session a) = (session a, []) /\
  export_click b a = (a, []).
Proof.
  intros H. split; [| split].
  - now apply start_noop.
  - now apply downloadPfp_noop.
  - unfold export_click. rewrite (start_noop b _ H).
    now rewrite with_session_same.
Qed.

Lemma downloadPfp_guard_noop_witness :
  export_click chrome start = (start, []).
Proof.
  apply (downloadPfp_guard_noop chrome start). left. reflexivity.
Defined.

(* ===================================================================== *)
(** ** Further properties of the page *)
(* ===================================================================== *)

Lemma submitDisabled_guard (s : Session) :
  submitDisabled s = negb (truthy (trim (username s)) && truthy_opt (image s)).
Proof. unfold submitDisabled. now rewrite negb_andb. Qed.

(** X1.  The submit button's [disabled] expression and the guard of
    [handleSubmit] agree: a submission with the button disabled changes
    nothing, and one with the button enabled leads to the preview with
    the user name and image as they were. *)
Theorem submit_button_agrees (a : App) :
  (submitDisabled (session a) = true -> step Submit a = (a, [])) /\
  (submitDisabled (session a) = false ->
   phase (session (fst (step Submit a))) = Previewing /\
   username (session (fst (step Submit a))) = username (session a) /\
   image (session (fst (step Submit a))) = image (session a)).
Proof.
  rewrite submitDisabled_guard. cbn [step fst]. unfold handleSubmit.
  destruct (truthy (trim (username (session a)))
            && truthy_opt (image (session a))); cbn [negb].
  - split; [discriminate | intros _; repeat split].
  - split; [intros _; now rewrite with_session_same | discriminate].
Qed.

Lemma submit_button_agrees_witness :
  step Submit start = (start, []) /\
  phase (session (fst (step Submit (run alice_form start)))) = Previewing.
Proof.
  split.
  - apply (proj1 (submit_button_agrees start)). reflexivity.
  - apply (proj2 (submit_button_agrees (run alice_form start))). reflexivity.
Defined.

(** X2.  In every state of the page in which the download button can be
    clicked, the guard of [downloadPfp] passes: the click either leaves
    an export in flight with the busy flag set and nothing reported, or,
    with no 2D context, reports the one failure and leaves the session
    as it was. *)
Theorem download_click_starts (a : App) (b : Browser) :
  reachable a -> enabled (ClickDownload b) a = true ->
  (contextAvailable b = true ->
   isDownloading (session (fst (export_click b a))) = true /\
   downloadDisabled (session (fst (export_click b a))) = true /\
   length (exports (fst (export_click b a))) = S (length (exports a)) /\
   snd (export_click b a) = []) /\
  (contextAvailable b = false ->
   fst (export_click b a) = a /\ snd (export_click b a) = downloadFailed).
Proof.
  intros Hr En. cbn [enabled] in En. apply andb_true_iff in En.
  destruct En as [Hs Hd]. apply negb_true_iff in Hd.
  apply reachable_ok in Hr. destruct Hr as (_ & Hne & _ & _ & _ & Hok).
  destruct (Hok Hs) as (Hu & _ & Hi).
  destruct (image (session a)) as [i|] eqn:Ei; [| contradiction].
  assert (Hn : i <> []) by (intros ->; now apply Hne).
  unfold export_click, downloadDisabled.
  rewrite (start_run b (session a) i Ei Hn Hu).
  destruct (contextAvailable b); cbn [fst snd session exports].
  - split; [intros _ | discriminate].
    repeat split. rewrite length_app. cbn [length]. lia.
  - split; [discriminate | intros _]. split; [| reflexivity].
    destruct a as [[u im sub dl] rs es]. cbn in Hd. subst dl. reflexivity.
Qed.

Lemma download_click_starts_witness :
  isDownloading (session (fst (export_click chrome (run alice_script start))))
  = true.
Proof.
  apply (proj1 (download_click_starts (run alice_script start) chrome
                  alice_reachable eq_refl) eq_refl).
Defined.

Lemma remove_nth_length {A} (k : nat) (l : list A) :
  (k < length l)%nat -> length (remove_nth k l) = pred (length l).
Proof.
  revert k. induction l as [|x l IH]; intros [|k] H; simpl in *; try lia.
  rewrite IH by lia. destruct l; simpl in *; lia.
Qed.

(** How one event changes the exports in flight. *)
Lemma exports_step (e : Event) (a : App) :
  exports (fst (step e a)) = exports a \/
  (exists b j, e = ClickDownload b /\
               exports (fst (step e a)) = exports a ++ [j] /\
               export_username j = username (session a)) \/
  (exists k b, e = ImageSettle k b /\
               exports (fst (step e a)) = remove_nth k (exports a)).
Proof.
  destruct e as [v | [f|] | i | i | | | b | k b]; cbn [step].
  - now left.
  - left. unfold handleImageUpload.
    now destruct (negb (startsWith (lit "image/") (type f))).
  - now left.
  - left. unfold reader_onload. now destruct (nth_error (readers a) i).
  - left. unfold reader_onerror. now destruct (nth_error (readers a) i).
  - now left.
  - now left.
  - unfold export_click, downloadPfp_start.
    destruct (negb (truthy_opt (image (session a)))
              || negb (truthy (trim (username (session a))))); [now left |].
    rewrite acquire_run. destruct (contextAvailable b); [| now left].
    right. left. eexists b, _. repeat split.
  - unfold export_settle.
    destruct (nth_error (exports a) k) as [j|]; [| now left].
    destruct (downloadPfp_settle b j (session a)).
    right. right. exists k, b. now split.
Qed.

(** Every export in flight captured a user name of at most 20 units. *)
Lemma reachable_export_names (a : App) :
  reachable a ->
  Forall (fun j => (length (export_username j) <= 20)%nat) (exports a).
Proof.
  induction 1 as [|a e Hr IH En]; [constructor |].
  destruct (exports_step e a) as [E | [(b & j & _ & E & Hj) | (k & b & _ & E)]];
    rewrite E.
  - exact IH.
  - apply Forall_app. split; [exact IH |]. constructor; [| constructor].
    rewrite Hj. destruct (reachable_ok a Hr) as [Hl _]. exact Hl.
  - now apply Forall_remove_nth.
Qed.

Lemma fileName_map (u : jsstring) :
  fileName u
  = map (fun c => if alnum c then c else 95%N) u ++ lit "-octrafied-pfp.png".
Proof. unfold fileName. f_equal. apply replaceOutside_unit. Qed.

Lemma fileName_units (u : jsstring) :
  Forall (fun c => fileNameUnit c = true) (fileName u).
Proof.
  rewrite fileName_map. apply Forall_app. split.
  - apply Forall_forall. intros c Hc. apply in_map_iff in Hc.
    destruct Hc as (d & <- & _). unfold fileNameUnit.
    destruct (alnum d) eqn:E; [now rewrite E | reflexivity].
  - repeat constructor.
Qed.

Lemma fileName_length (u : jsstring) :
  length (fileName u) = (length u + 18)%nat.
Proof.
  rewrite fileName_map, length_app, length_map. reflexivity.
Qed.

(** X3.  A download name is made of letters, digits, underscores and the
    hyphens and dot of its suffix only, and is 18 units longer than the
    user name; sanitising an already sanitised name changes nothing.
    Every file handed out in a run of the page has such a name, of at
    most 38 units. *)
Theorem fileName_safe :
  (forall u,
      Forall (fun c => fileNameUnit c = true) (fileName u) /\
      length (fileName u) = (length u + 18)%nat /\
      fileName (replaceOutside alnum (lit "_") u) = fileName u) /\
  (forall a k b name png,
      reachable a ->
      In (name, png) (downloads (snd (export_settle k b a))) ->
      Forall (fun c => fileNameUnit c = true) name /\
      (length name <= 38)%nat).
Proof.
  split.
  - intros u. split; [apply fileName_units |]. split; [apply fileName_length |].
    rewrite !fileName_map. f_equal.
    change (lit "_") with [95%N]. rewrite replaceOutside_unit, map_map.
    apply map_ext. intros c. destruct (alnum c) eqn:E; [now rewrite E |].
    reflexivity.
  - intros a k b name png Hr Hin.
    destruct (export_settle_download a k b name png Hr Hin)
      as (j & w & h & Hj & _ & -> & _).
    split; [apply fileName_units |].
    rewrite fileName_length.
    pose proof (nth_error_Forall _ _ _ _ (reachable_export_names a Hr) Hj).
    cbn beta in H. lia.
Qed.

Lemma fileName_safe_witness :
  Forall (fun c => fileNameUnit c = true) (lit "alice-octrafied-pfp.png") /\
  (length (lit "alice-octrafied-pfp.png") <= 38)%nat.
Proof.
  apply (proj2 fileName_safe
           (run (alice_script ++ [ClickDownload chrome]) start) 0%nat chrome
           (lit "alice-octrafied-pfp.png")
           (mkPNG 200 200 (composite (mkImage sampleURL 640 480)))
           alice_exporting).
  left. reflexivity.
Defined.

(** X4.  Resetting the page does not cancel an export in flight.  The
    session is back to its initial state, but the export is still
    pending, and when its image loads and nothing throws it hands out
    the composite under the name captured at the click, leaving the
    session initial. *)
Theorem reset_keeps_export (a : App) (k : nat) (j : Export) (b : Browser)
  (w h : Z) :
  reachable a -> nth_error (exports a) k = Some j ->
  imageLoad b = Onload w h -> drawImageThrows b = false ->
  toDataURLThrows b = false -> appendChildThrows b = false ->
  session (fst (step Reset a)) = initial /\
  exports (fst (step Reset a)) = exports a /\
  snd (step (ImageSettle k b) (fst (step Reset a)))
  = [Download (fileName (export_username j))
       (mkPNG 200 200 (composite (mkImage (export_image j) w h)))] /\
  session (fst (step (ImageSettle k b) (fst (step Reset a)))) = initial.
Proof.
  intros Hr Hj Hl Hd Ht Ha.
  apply reachable_ok in Hr. destruct Hr as (_ & _ & _ & He & _).
  destruct (nth_error_Forall _ _ _ _ He Hj) as (Hc & _ & _).
  cbn [step fst with_session session exports].
  split; [reflexivity |]. split; [reflexivity |].
  unfold export_settle, with_session. cbn [exports session readers].
  rewrite Hj, (settle_run b j _ Hc), Hl, Hd, Ht, Ha.
  cbn [orb fst snd session]. split; reflexivity.
Qed.

Lemma reset_keeps_export_witness :
  snd (step (ImageSettle 0 chrome)
         (fst (step Reset (run (alice_script ++ [ClickDownload chrome]) start))))
  = [Download (lit "alice-octrafied-pfp.png")
       (mkPNG 200 200 (composite (mkImage sampleURL 640 480)))].
Proof.
  apply (reset_keeps_export
           (run (alice_script ++ [ClickDownload chrome]) start) 0
           (mkExport blank200 sampleURL (lit "alice")) chrome 640 480
           alice_exporting);
    reflexivity.
Defined.

(** What [downloadPfp] does to the session before its [await]. *)
Lemma start_session (b : Browser) (s : Session) :
  exists v, fst (fst (downloadPfp_start b s)) = setIsDownloading v s \/
            fst (fst (downloadPfp_start b s)) = s.
Proof.
  unfold downloadPfp_start.
  destruct (negb (truthy_opt (image s)) || negb (truthy (trim (username s)))).
  - exists true. now right.
  - rewrite acquire_run. destruct (contextAvailable b);
      [exists true | exists false]; now left.
Qed.

(** X5.  An export touches nothing but the busy flag: neither the click
    nor the settling changes the user name, the image, the phase or the
    readers in flight, in any state; and what a settling export reports
    and hands out does not depend on the session it finds. *)
Theorem export_frame :
  (forall b a,
      username (session (fst (export_click b a))) = username (session a) /\
      image (session (fst (export_click b a))) = image (session a) /\
      submitted (session (fst (export_click b a))) = submitted (session a) /\
      readers (fst (export_click b a)) = readers a) /\
  (forall k b a,
      username (session (fst (export_settle k b a))) = username (session a) /\
      image (session (fst (export_settle k b a))) = image (session a) /\
      submitted (session (fst (export_settle k b a))) = submitted (session a) /\
      readers (fst (export_settle k b a)) = readers a) /\
  (forall b j s s',
      snd (downloadPfp_settle b j s) = snd (downloadPfp_settle b j s')).
Proof.
  split; [| split].
  - intros b a. unfold export_click.
    destruct (start_session b (session a)) as [v H].
    destruct (downloadPfp_start b (session a)) as [[s effects] [j|]];
      cbn [fst] in H; cbn [fst session readers with_session];
      destruct H as [-> | ->]; repeat split.
  - intros k b a. unfold export_settle.
    destruct (nth_error (exports a) k) as [j|]; [| repeat split].
    pose proof (settle_any b j (session a)) as [H _].
    destruct (downloadPfp_settle b j (session a)) as [s effects].
    cbn [fst] in H. subst s. repeat split.
  - intros b j s s'. unfold downloadPfp_settle.
    now destruct (runStateT _ (canvasElement j)) as [e | [effects c]].
Qed.
